(** * EXIF orientation fixtures: a shallow embedding of
      [test_files/create_exif_test_images.py]

    The script builds a 40x20 raster, encodes it with an external JPEG
    codec, builds a minimal EXIF APP1 segment per orientation and splices
    it after the SOI marker.  Byte strings are [list byte]; Python
    exceptions are the [Raise] branch of [result]; the script's file
    writes and prints are threaded through a [World]. *)

From Stdlib Require Import ZArith Lia Strings.Byte DecimalString.
From stdpp Require Import base list strings.

Local Open Scope Z_scope.

(** ** Exceptions and results *)

Inductive exn : Type :=
  | ValueError (msg : string)   (* raise ValueError(msg) *)
  | StructError                 (* struct.error, from struct.pack *)
  | IndexError                  (* PIL putpixel / getpixel out of range *)
  | OSError (path : string).    (* open(path, "wb") failed *)

Inductive result (A : Type) : Type :=
  | Ok (a : A)
  | Raise (e : exn).
Arguments Ok {A} a.
Arguments Raise {A} e.

#[global] Instance result_ret : MRet result := fun _ a => Ok a.
#[global] Instance result_bind : MBind result := fun _ _ f m =>
  match m with
  | Ok a => f a
  | Raise e => Raise e
  end.

(** ** Byte strings *)

Definition bytes : Type := list byte.

Definition byte_of_Z (z : Z) : byte :=
  match Byte.of_N (Z.to_N (z mod 256)) with
  | Some b => b
  | None => x00
  end.

Definition Z_of_byte (b : byte) : Z := Z.of_N (Byte.to_N b).

(** [v.to_bytes(width, "little")]: least significant byte first. *)
Fixpoint int_to_bytes_le (width : nat) (v : Z) : bytes :=
  match width with
  | O => []
  | S w => byte_of_Z (v mod 256) :: int_to_bytes_le w (v / 256)
  end.

Definition int_to_bytes_be (width : nat) (v : Z) : bytes :=
  rev (int_to_bytes_le width v).

(** [int.from_bytes(bs, "little")] and [int.from_bytes(bs, "big")]. *)
Fixpoint int_from_bytes_le (bs : bytes) : Z :=
  match bs with
  | [] => 0
  | b :: bs' => Z_of_byte b + 256 * int_from_bytes_le bs'
  end.

Definition int_from_bytes_be (bs : bytes) : Z := int_from_bytes_le (rev bs).

(** Python slices [b[i:j]], [b[:j]], [b[i:]] on byte strings never raise. *)
Definition slice {A} (l : list A) (i j : nat) : list A := take (j - i) (drop i l).

#[global] Instance byte_eq_dec : EqDecision byte := Byte.byte_eq_dec.

(** ** [struct.pack] for the format strings the script uses *)

Inductive byteorder : Type :=
  | LittleEndian   (* "<" *)
  | BigEndian.     (* ">" *)

Inductive fmt : Type :=
  | H    (* unsigned short, 2 bytes *)
  | I.   (* unsigned int, 4 bytes *)

Definition fmt_size (f : fmt) : nat :=
  match f with
  | H => 2
  | I => 4
  end.

Definition fmt_max (f : fmt) : Z :=
  match f with
  | H => 65535
  | I => 4294967295
  end.

(** One field: the value must fit the unsigned type, else [struct.error]. *)
Definition pack_field (bo : byteorder) (f : fmt) (v : Z) : result bytes :=
  if decide (0 <= v <= fmt_max f) then
    Ok (match bo with
        | LittleEndian => int_to_bytes_le (fmt_size f) v
        | BigEndian => int_to_bytes_be (fmt_size f) v
        end)
  else Raise StructError.

(** [struct.pack(bo + fs, *vs)]: as many values as format characters. *)
Fixpoint struct_pack (bo : byteorder) (fs : list fmt) (vs : list Z) : result bytes :=
  match fs, vs with
  | [], [] => Ok []
  | f :: fs', v :: vs' =>
      b ← pack_field bo f v;
      rest ← struct_pack bo fs' vs';
      mret (b ++ rest)
  | _, _ => Raise StructError
  end.

(** ** ExifSegmentBuilder *)

(** b"II" *)
Definition bII : bytes := [x49; x49].
(** b"Exif\x00\x00" *)
Definition bExif00 : bytes := [x45; x78; x69; x66; x00; x00].
(** b"\xff\xe1" *)
Definition bAPP1 : bytes := [xff; xe1].
(** b"\xff\xd8" *)
Definition bSOI : bytes := [xff; xd8].

Definition create_minimal_exif_with_orientation (orientation : Z) : result bytes :=
  (* TIFF header (little-endian) *)
  let tiff_header := bII in
  magic ← struct_pack LittleEndian [H] [42];
  let tiff_header := tiff_header ++ magic in
  ifd0 ← struct_pack LittleEndian [I] [8];
  let tiff_header := tiff_header ++ ifd0 in
  (* IFD0 with one entry (Orientation) *)
  ifd ← struct_pack LittleEndian [H] [1];
  tag ← struct_pack LittleEndian [H] [0x0112];
  let ifd := ifd ++ tag in
  ty ← struct_pack LittleEndian [H] [3];
  let ifd := ifd ++ ty in
  cnt ← struct_pack LittleEndian [I] [1];
  let ifd := ifd ++ cnt in
  val ← struct_pack LittleEndian [H; H] [orientation; 0];
  let ifd := ifd ++ val in
  (* next IFD offset *)
  nxt ← struct_pack LittleEndian [I] [0];
  let ifd := ifd ++ nxt in
  let tiff_data := tiff_header ++ ifd in
  (* APP1 segment *)
  let exif_header := bExif00 in
  let app1_data := exif_header ++ tiff_data in
  let app1_length := Z.of_nat (length app1_data) + 2 in
  let app1_segment := bAPP1 in
  len ← struct_pack BigEndian [H] [app1_length];
  let app1_segment := app1_segment ++ len in
  let app1_segment := app1_segment ++ app1_data in
  mret app1_segment.

(** ** SegmentEmbedder *)

Definition embed_exif_in_jpeg (jpeg_bytes exif_segment : bytes) : result bytes :=
  if decide (take 2 jpeg_bytes ≠ bSOI) then
    Raise (ValueError "Not a valid JPEG file")
  else
    Ok (take 2 jpeg_bytes ++ exif_segment ++ drop 2 jpeg_bytes).

(** ** PixelImageGenerator *)

(** An RGB triple. *)
Definition colour : Type := Z * Z * Z.

(** A PIL image in mode "RGB": the pixel buffer is row-major. *)
Record Image : Type := mkImage {
  im_width : nat;
  im_height : nat;
  im_data : list colour
}.

(** [Image.new("RGB", (w, h), color=c)] *)
Definition Image_new (w h : nat) (c : colour) : Image :=
  mkImage w h (replicate (h * w) c).

(** [img.putpixel((x, y), c)]; the coordinates here come from [range], so
    they are never negative, and PIL raises IndexError past the edges. *)
Definition putpixel (img : Image) (xy : nat * nat) (c : colour) : result Image :=
  let '(x, y) := xy in
  if decide (x < im_width img ∧ y < im_height img)%nat then
    Ok (mkImage (im_width img) (im_height img)
                (<[(y * im_width img + x)%nat := c]> (im_data img)))
  else Raise IndexError.

(** [img.getpixel((x, y))] *)
Definition getpixel (img : Image) (xy : nat * nat) : result colour :=
  let '(x, y) := xy in
  if decide (x < im_width img ∧ y < im_height img)%nat then
    match im_data img !! (y * im_width img + x)%nat with
    | Some c => Ok c
    | None => Raise IndexError
    end
  else Raise IndexError.

(** [range(a, b)] and [range(b)] *)
Definition range (a b : nat) : list nat := seq a (b - a).

(** A [for] loop whose body updates the loop state and may raise. *)
Fixpoint foldM {M : Type → Type} `{!MBind M, !MRet M} {A S : Type}
    (body : S → A → M S) (s : S) (xs : list A) : M S :=
  match xs with
  | [] => mret s
  | x :: xs' => s' ← body s x; foldM body s' xs'
  end.

Definition create_asymmetric_image : result Image :=
  let img := Image_new 40 20 (255, 255, 255) in
  (* Red square in top-left (10x10) *)
  img ← foldM (fun img x =>
           foldM (fun img y => putpixel img (x, y) (255, 0, 0)) img (range 0 10))
         img (range 0 10);
  (* Blue strip on right edge (last 5 columns) *)
  img ← foldM (fun img x =>
           foldM (fun img y => putpixel img (x, y) (0, 0, 255)) img (range 0 20))
         img (range 35 40);
  (* Green strip on bottom edge (last 5 rows, excluding blue area) *)
  img ← foldM (fun img x =>
           foldM (fun img y => putpixel img (x, y) (0, 255, 0)) img (range 15 20))
         img (range 0 35);
  mret img.

(** ** OrientationFixtureSuite *)

(** What the script does to the outside: files written (in the order the
    writes completed) and lines printed. *)
Record World : Type := mkWorld {
  written : list (string * bytes);
  stdout : list string
}.

(** A computation that changes the world and may raise; what was done
    before an exception stays done. *)
Definition IO (A : Type) : Type := World → result A * World.

#[global] Instance IO_ret : MRet IO := fun _ a w => (Ok a, w).
#[global] Instance IO_bind : MBind IO := fun _ _ f m w =>
  match m w with
  | (Ok a, w') => f a w'
  | (Raise e, w') => (Raise e, w')
  end.

Definition lift {A} (r : result A) : IO A := fun w => (r, w).

Definition print (line : string) : IO unit := fun w =>
  (Ok tt, mkWorld (written w) (stdout w ++ [line])).

(** [str(n)] for an int, and for a length. *)
Definition str (n : Z) : string := NilZero.string_of_int (Z.to_int n).
Definition str_len {A} (l : list A) : string := str (Z.of_nat (length l)).

(** The dict literal of [main]; Python iterates a dict in insertion order. *)
Definition orientations : list (Z * string) :=
  [ (1, "normal");
    (2, "flip_horizontal");
    (3, "rotate_180");
    (4, "flip_vertical");
    (5, "transpose");
    (6, "rotate_90_cw");
    (7, "transverse");
    (8, "rotate_270_cw") ].

(** f"exif_orientation_{orientation}_{name}.jpg" *)
Definition fixture_filename (orientation : Z) (name : string) : string :=
  "exif_orientation_" +:+ str orientation +:+ "_" +:+ name +:+ ".jpg".

(** f"  Created: {filename} ({len(data)} bytes)" *)
Definition created_line (filename : string) (data : bytes) : string :=
  "  Created: " +:+ filename +:+ " (" +:+ str_len data +:+ " bytes)".

Section Suite.

(** The JPEG codec behind [base_img.save(buffer, format="JPEG", quality=q)]
    followed by [buffer.getvalue()]: external to the script. *)
Variable save_jpeg : Image → Z → bytes.

(** Whether [open(path, "wb")] succeeds: decided by the file system. *)
Variable can_open : string → bool.

(** [with open(path, "wb") as f: f.write(data)] *)
Definition write_file (path : string) (data : bytes) : IO unit := fun w =>
  if can_open path then (Ok tt, mkWorld (written w ++ [(path, data)]) (stdout w))
  else (Raise (OSError path), w).

(** The body of the loop over [orientations.items()]. *)
Definition main_loop_body (base_jpeg : bytes) (item : Z * string) : IO unit :=
  let '(orientation, name) := item in
  exif_segment ← lift (create_minimal_exif_with_orientation orientation);
  jpeg_with_exif ← lift (embed_exif_in_jpeg base_jpeg exif_segment);
  let filename := fixture_filename orientation name in
  _ ← write_file filename jpeg_with_exif;
  print (created_line filename jpeg_with_exif).

Definition main : IO unit :=
  _ ← print "Creating test JPEG images with EXIF orientation tags...";
  (* Create base image *)
  base_img ← lift create_asymmetric_image;
  (* Save base image to bytes (no EXIF) *)
  let base_jpeg := save_jpeg base_img 95 in
  (* Generate test images for each orientation value *)
  _ ← foldM (fun _ item => main_loop_body base_jpeg item) tt orientations;
  (* Also create a JPEG without any EXIF for testing fallback *)
  _ ← write_file "exif_orientation_none.jpg" base_jpeg;
  _ ← print (created_line "exif_orientation_none.jpg" base_jpeg);
  print (String (Ascii.ascii_of_nat 10) "Done! Created 9 test images.").

End Suite.

(** The layout of the APP1 segment in the words of the file-format
    description: marker, big-endian length 34, "Exif\0\0", "II", 42, IFD0
    offset 8, one entry (tag 0x0112, SHORT, count 1, the value in a 4-byte
    slot), next-IFD offset 0. *)
Definition exif_segment_layout (n : Z) : bytes :=
  [xff; xe1] ++ [x00; x22] ++ [x45; x78; x69; x66; x00; x00] ++
  [x49; x49] ++ [x2a; x00] ++ [x08; x00; x00; x00] ++
  [x01; x00] ++ [x12; x01] ++ [x03; x00] ++ [x01; x00; x00; x00] ++
  (int_to_bytes_le 2 n ++ [x00; x00]) ++
  [x00; x00; x00; x00].

(** Offset of the value field inside a fixture: SOI (2), APP1 marker (2),
    length (2), identifier (6), TIFF header (8), entry count (2), then
    tag (2), type (2) and count (4) of the entry. *)
Definition value_field_offset : nat := 2 + 2 + 2 + 6 + 8 + 2 + (2 + 2 + 4).

(** Inputs for the closed instances below. *)
Definition empty_world : World := mkWorld [] [].
Definition stub_codec : Image → Z → bytes := fun _ _ => [xff; xd8; xff; xd9].
Definition always_open : string → bool := fun _ => true.
Definition third_fails : string → bool :=
  fun path => negb (String.eqb path "exif_orientation_3_rotate_180.jpg").

(** The colour of each region in the words of the generator's contract:
    red 10x10 square at the top-left, blue on the last 5 columns, green on
    the last 5 rows left of the blue strip, white elsewhere. *)
Definition region_colour (x y : nat) : colour :=
  if decide (x < 10 ∧ y < 10)%nat then (255, 0, 0)
  else if decide (35 ≤ x)%nat then (0, 0, 255)
  else if decide (15 ≤ y)%nat then (0, 255, 0)
  else (255, 255, 255).

(** Pixel by pixel comparison of an image with the regions. *)
Definition pixel_matches (img : Image) (x y : nat) : bool :=
  match getpixel img (x, y) with
  | Ok c => bool_decide (c = region_colour x y)
  | Raise _ => false
  end.

Definition raster_matches (img : Image) : bool :=
  forallb (fun x => forallb (fun y => pixel_matches img x y) (range 0 20)) (range 0 40).

(** What the suite is meant to leave behind for a given baseline: the
    eight EXIF-bearing fixtures in ascending order, then the baseline. *)
Definition suite_fixtures (base : bytes) : list (string * bytes) :=
  map (fun item : Z * string =>
         (fixture_filename item.1 item.2,
          [xff; xd8] ++ exif_segment_layout item.1 ++ drop 2 base))
      orientations
  ++ [("exif_orientation_none.jpg", base)].

(** The longest prefix of a list whose elements all pass a test. *)
Fixpoint take_while {A} (p : A → bool) (l : list A) : list A :=
  match l with
  | [] => []
  | x :: l' => if p x then x :: take_while p l' else []
  end.

(** Writing a list of files in order, each followed by its "Created"
    line, stopping at the first file that cannot be opened. *)
Fixpoint run_writes (can_open : string → bool) (fs : list (string * bytes))
    (w : World) : result unit * World :=
  match fs with
  | [] => (Ok tt, w)
  | (path, data) :: fs' =>
      if can_open path then
        run_writes can_open fs'
          (mkWorld (written w ++ [(path, data)]) (stdout w ++ [created_line path data]))
      else (Raise (OSError path), w)
  end.

(** The first and the last line that [main] prints. *)
Definition banner_line : string :=
  "Creating test JPEG images with EXIF orientation tags...".
Definition done_line : string :=
  String (Ascii.ascii_of_nat 10) "Done! Created 9 test images.".

(** The nine file names of the suite, in the order [main] writes them. *)
Definition fixture_names : list string :=
  ["exif_orientation_1_normal.jpg";
   "exif_orientation_2_flip_horizontal.jpg";
   "exif_orientation_3_rotate_180.jpg";
   "exif_orientation_4_flip_vertical.jpg";
   "exif_orientation_5_transpose.jpg";
   "exif_orientation_6_rotate_90_cw.jpg";
   "exif_orientation_7_transverse.jpg";
   "exif_orientation_8_rotate_270_cw.jpg";
   "exif_orientation_none.jpg"].

(** * Multilingual PDF fixtures: [create_multilingual_test_pdfs.py]

    The script lays text out on a reportlab canvas.  The canvas is outside
    the script, so the model records the calls made on it, in order.
    Positions are in points; [letter] is (612.0, 792.0) and every position
    the script computes from it is an integer far below 2^53, on which
    Python's float arithmetic is exact, so positions are integers here and
    the page height is a parameter.  Text is kept as its UTF-8 bytes. *)

Inductive call : Type :=
  | makedirs (path : string)              (* os.makedirs(path, exist_ok=True) *)
  | Canvas (path : string)                (* canvas.Canvas(path, pagesize=letter) *)
  | setFont (name : string) (size : Z)    (* c.setFont(name, size) *)
  | drawString (x y : Z) (text : string)  (* c.drawString(x, y, text) *)
  | showPage                              (* c.showPage() *)
  | save                                  (* c.save() *)
  | print_line (line : string).           (* print(line) *)

#[global] Instance call_eq_dec : EqDecision call.
Proof. solve_decision. Defined.

(** The loop [for line in lines: ...] that every document runs: a line
    that is not empty is drawn at the current position, the position moves
    down 18 points, and below 50 a new page starts at [height - 50].  The
    result is the calls made and the position after the loop. *)
Fixpoint draw_lines (height : Z) (lines : list string) (y_position : Z) : list call * Z :=
  match lines with
  | [] => ([], y_position)
  | line :: rest =>
      let drawn := if decide (line ≠ EmptyString) then [drawString 72 y_position line] else [] in
      let y_position := y_position - 18 in
      let '(paged, y_position) :=
        if decide (y_position < 50) then ([showPage], height - 50)
        else ([], y_position) in
      let '(calls, y_position) := draw_lines height rest y_position in
      (drawn ++ paged ++ calls, y_position)
  end.

(** One document: canvas, title in 14 points at [height - 80], body in 12
    points starting 40 points lower, save, report. *)
Definition write_pdf (height : Z) (pdf_path title : string) (lines : list string) : list call :=
  let y_position := height - 80 in
  [Canvas pdf_path; setFont "Helvetica" 14; drawString 72 y_position title] ++
  let y_position := y_position - 40 in
  [setFont "Helvetica" 12] ++
  (draw_lines height lines y_position).1 ++
  [save; print_line ("Created: " +:+ pdf_path)].

Definition spanish_lines : list string :=
  [
    "Hola mundo, este es un documento en español.";
    EmptyString;
    "Este documento contiene texto en español para probar";
    "el reconocimiento óptico de caracteres (OCR).";
    EmptyString;
    "Las palabras incluyen acentos como:";
    "• café, niño, comunicación, corazón";
    "• también, habitación, compañía";
    "• informática, educación, investigación";
    EmptyString;
    "Números y fechas en español:";
    "• 123 ciento veintitrés";
    "• 456 cuatrocientos cincuenta y seis";
    "• 15 de marzo de 2024";
    "• 31 de diciembre de 2023";
    EmptyString;
    "Frases comunes:";
    "Por favor, muchas gracias, de nada.";
    "¿Cómo está usted? Muy bien, gracias.";
    "Buenos días, buenas tardes, buenas noches.";
    EmptyString;
    "El sistema OCR debe reconocer correctamente";
    "todo este contenido en español, incluyendo";
    "los caracteres especiales y acentos."
  ].

Definition english_lines : list string :=
  [
    "Hello world, this is an English document.";
    EmptyString;
    "This document contains English text for testing";
    "optical character recognition (OCR) capabilities.";
    EmptyString;
    "Common English words and phrases:";
    "• technology, computer, software, hardware";
    "• document, recognition, character, optical";
    "• testing, validation, verification, quality";
    EmptyString;
    "Numbers and dates in English:";
    "• 123 one hundred twenty-three";
    "• 456 four hundred fifty-six";
    "• March 15, 2024";
    "• December 31, 2023";
    EmptyString;
    "Common phrases:";
    "Please, thank you, you're welcome.";
    "How are you? I'm fine, thank you.";
    "Good morning, good afternoon, good evening.";
    EmptyString;
    "The OCR system should correctly recognize";
    "all this English content, including proper";
    "capitalization and punctuation marks.";
    EmptyString;
    "Technical terms and abbreviations:";
    "API, REST, JSON, XML, HTTP, HTTPS";
    "CPU, RAM, SSD, USB, WiFi, Bluetooth"
  ].

Definition mixed_lines : list string :=
  [
    "Sección en español:";
    EmptyString;
    "Este es un documento que contiene texto en dos";
    "idiomas diferentes. El reconocimiento óptico";
    "de caracteres debe manejar ambos idiomas";
    "correctamente y sin confusión.";
    EmptyString;
    "Palabras clave: español, idioma, reconocimiento";
    EmptyString;
    "English section:";
    EmptyString;
    "This is a document that contains text in two";
    "different languages. The optical character";
    "recognition should handle both languages";
    "correctly without confusion.";
    EmptyString;
    "Keywords: English, language, recognition";
    EmptyString;
    "Conclusión / Conclusion:";
    EmptyString;
    "Los sistemas modernos de OCR deben ser capaces";
    "de procesar múltiples idiomas en un solo documento.";
    EmptyString;
    "Modern OCR systems should be capable of processing";
    "multiple languages within a single document."
  ].

Definition complex_spanish_lines : list string :=
  [
    "Características especiales del español:";
    EmptyString;
    "Vocales acentuadas: á, é, í, ó, ú";
    "Letra eñe: niño, España, año, señor";
    "Diéresis: pingüino, cigüeña, vergüenza";
    EmptyString;
    "Signos de puntuación especiales:";
    "¿Preguntas con signos de apertura?";
    "¡Exclamaciones con signos de apertura!";
    EmptyString;
    "Palabras con combinaciones complejas:";
    "• excelente, exacto, oxígeno";
    "• desarrollo, rápido, árbol";
    "• comunicación, administración, información";
    EmptyString;
    "Números ordinales:";
    "1º primero, 2º segundo, 3º tercero";
    "10º décimo, 20º vigésimo, 100º centésimo";
    EmptyString;
    "Este documento prueba la capacidad del OCR";
    "para reconocer correctamente todos los";
    "caracteres especiales del idioma español."
  ].

Definition complex_english_lines : list string :=
  [
    "Advanced English language features:";
    EmptyString;
    "Contractions: don't, won't, can't, isn't";
    "Possessives: user's, system's, company's";
    "Hyphenated words: state-of-the-art, well-known";
    EmptyString;
    "Technical terminology:";
    "• machine learning, artificial intelligence";
    "• natural language processing, deep learning";
    "• computer vision, pattern recognition";
    EmptyString;
    "Abbreviations and acronyms:";
    "• CEO, CTO, API, SDK, IDE, URL";
    "• HTML, CSS, JavaScript, TypeScript";
    "• REST, GraphQL, JSON, XML, YAML";
    EmptyString;
    "Numbers and measurements:";
    "• 3.14159 (pi), 2.71828 (e)";
    "• 100%, 50°F, 25°C, $1,000.00";
    "• 1st, 2nd, 3rd, 21st century";
    EmptyString;
    "This document tests the OCR system's ability";
    "to recognize complex English text patterns";
    "including technical terms and formatting."
  ].

Definition test_dir : string := "frontend/test_data/multilingual".

(** The calls of [create_multilingual_test_pdfs] up to the last
    "Created:" line; the size summary printed after it reads the sizes of
    the files from disk and is not part of the model. *)
Definition create_multilingual_test_pdfs (height : Z) : list call :=
  [makedirs test_dir] ++
  write_pdf height (test_dir +:+ "/spanish_test.pdf")
    "Documento de Prueba en Español" spanish_lines ++
  write_pdf height (test_dir +:+ "/english_test.pdf")
    "English Test Document" english_lines ++
  write_pdf height (test_dir +:+ "/mixed_language_test.pdf")
    "Documento Bilingüe / Bilingual Document" mixed_lines ++
  write_pdf height (test_dir +:+ "/spanish_complex.pdf")
    "Documento Español Complejo" complex_spanish_lines ++
  write_pdf height (test_dir +:+ "/english_complex.pdf")
    "Complex English Document" complex_english_lines.

(** The texts passed to [drawString], in order. *)
Definition drawn_texts (calls : list call) : list string :=
  omap (fun c => match c with drawString _ _ text => Some text | _ => None end) calls.

(** * Properties *)

(** ** The builder *)

Lemma struct_pack_HH_le (a : Z) :
  struct_pack LittleEndian [H; H] [a; 0] =
  if decide (0 <= a <= 65535) then Ok (int_to_bytes_le 2 a ++ [x00; x00])
  else Raise StructError.
Proof.
  cbn [struct_pack]. unfold pack_field. cbn [fmt_max fmt_size].
  destruct (decide (0 <= a <= 65535)); reflexivity.
Qed.

Lemma create_minimal_exif_eq (n : Z) :
  create_minimal_exif_with_orientation n =
  if decide (0 <= n <= 65535) then Ok (exif_segment_layout n)
  else Raise StructError.
Proof.
  unfold create_minimal_exif_with_orientation.
  rewrite struct_pack_HH_le.
  destruct (decide (0 <= n <= 65535)); reflexivity.
Qed.

Lemma orientation_cases (n : Z) :
  1 <= n <= 8 → n ∈ [1; 2; 3; 4; 5; 6; 7; 8].
Proof.
  intros Hn. rewrite !elem_of_cons. lia.
Qed.

Ltac each_orientation Hn :=
  apply orientation_cases in Hn;
  repeat (apply elem_of_cons in Hn as [-> | Hn]);
  [ .. | by apply elem_of_nil in Hn ].

(** C1: for every orientation n in 1..8 the builder returns exactly the
    36 bytes FF E1, 00 22, "Exif\0\0", "II", 2A 00, 08 00 00 00, 01 00,
    12 01, 03 00, 01 00 00 00, the 4-byte value field with n little-endian
    in its first two bytes and zero in the last two, and 00 00 00 00. *)
Theorem builder_returns_exact_bytes (n : Z) :
  1 <= n <= 8 →
  create_minimal_exif_with_orientation n =
    Ok [xff; xe1; x00; x22; x45; x78; x69; x66; x00; x00; x49; x49;
        x2a; x00; x08; x00; x00; x00; x01; x00; x12; x01; x03; x00;
        x01; x00; x00; x00; byte_of_Z n; x00; x00; x00;
        x00; x00; x00; x00]
  ∧ int_from_bytes_le [byte_of_Z n; x00] = n.
Proof.
  intros Hn. rewrite create_minimal_exif_eq.
  destruct (decide (0 <= n <= 65535)) as [_ | Hout]; [| lia].
  each_orientation Hn; split; reflexivity.
Qed.

Lemma builder_returns_exact_bytes_witness :
  create_minimal_exif_with_orientation 6 =
    Ok [xff; xe1; x00; x22; x45; x78; x69; x66; x00; x00; x49; x49;
        x2a; x00; x08; x00; x00; x00; x01; x00; x12; x01; x03; x00;
        x01; x00; x00; x00; byte_of_Z 6; x00; x00; x00;
        x00; x00; x00; x00]
  ∧ int_from_bytes_le [byte_of_Z 6; x00] = 6.
Proof. apply (builder_returns_exact_bytes 6). lia. Defined.

(** C3: for every orientation in 1..8 the APP1 length field of the built
    segment, read as a big-endian 16-bit integer, is the number of bytes
    from the start of the length field to the end of the segment (the IFD
    terminator): everything but the 2-byte APP1 marker. *)
Theorem app1_length_counts_payload (n : Z) :
  1 <= n <= 8 →
  ∃ seg : bytes,
    create_minimal_exif_with_orientation n = Ok seg
    ∧ take 2 seg = bAPP1
    ∧ int_from_bytes_be (slice seg 2 4) = Z.of_nat (length (drop 2 seg))
    ∧ drop (length seg - 4) seg = [x00; x00; x00; x00].
Proof.
  intros Hn. rewrite create_minimal_exif_eq.
  destruct (decide (0 <= n <= 65535)) as [_ | Hout]; [| lia].
  exists (exif_segment_layout n). split; [reflexivity |].
  repeat split; reflexivity.
Qed.

Lemma app1_length_counts_payload_witness :
  ∃ seg : bytes,
    create_minimal_exif_with_orientation 3 = Ok seg
    ∧ take 2 seg = bAPP1
    ∧ int_from_bytes_be (slice seg 2 4) = Z.of_nat (length (drop 2 seg))
    ∧ drop (length seg - 4) seg = [x00; x00; x00; x00].
Proof. apply (app1_length_counts_payload 3). lia. Defined.

(** C4, as stated, fails: orientations 0 and 9 lie outside 1..8 and the
    builder returns a segment for each of them. *)
Lemma builder_accepts_zero_and_nine :
  ¬ (1 <= 0 <= 8) ∧ ¬ (1 <= 9 <= 8)
  ∧ create_minimal_exif_with_orientation 0 =
      Ok [xff; xe1; x00; x22; x45; x78; x69; x66; x00; x00; x49; x49;
          x2a; x00; x08; x00; x00; x00; x01; x00; x12; x01; x03; x00;
          x01; x00; x00; x00; x00; x00; x00; x00;
          x00; x00; x00; x00]
  ∧ create_minimal_exif_with_orientation 9 =
      Ok [xff; xe1; x00; x22; x45; x78; x69; x66; x00; x00; x49; x49;
          x2a; x00; x08; x00; x00; x00; x01; x00; x12; x01; x03; x00;
          x01; x00; x00; x00; x09; x00; x00; x00;
          x00; x00; x00; x00].
Proof. repeat split; first [lia | reflexivity]. Qed.

(** C4, amended: the builder checks no range of its own.  Every integer
    that fits an unsigned 16-bit field (0 and 9 included) yields the
    segment with that integer little-endian in the value field; any other
    integer makes the packing of the value field raise struct.error. *)
Theorem builder_range_is_unsigned_short (n : Z) :
  create_minimal_exif_with_orientation n =
  if decide (0 <= n <= 65535) then
    Ok ([xff; xe1; x00; x22; x45; x78; x69; x66; x00; x00; x49; x49;
         x2a; x00; x08; x00; x00; x00; x01; x00; x12; x01; x03; x00;
         x01; x00; x00; x00]
        ++ [byte_of_Z (n mod 256); byte_of_Z (n / 256 mod 256); x00; x00]
        ++ [x00; x00; x00; x00])
  else Raise StructError.
Proof.
  rewrite create_minimal_exif_eq.
  destruct (decide (0 <= n <= 65535)); reflexivity.
Qed.

(** ** The embedder *)

Lemma embed_soi (stream seg : bytes) :
  take 2 stream = bSOI →
  embed_exif_in_jpeg stream seg = Ok (bSOI ++ seg ++ drop 2 stream).
Proof.
  intros Hsoi. unfold embed_exif_in_jpeg.
  destruct (decide (take 2 stream ≠ bSOI)) as [Hne | _]; [done |].
  by rewrite Hsoi.
Qed.

Lemma embed_no_soi (stream seg : bytes) :
  take 2 stream ≠ bSOI →
  embed_exif_in_jpeg stream seg = Raise (ValueError "Not a valid JPEG file").
Proof.
  intros Hne. unfold embed_exif_in_jpeg.
  destruct (decide (take 2 stream ≠ bSOI)); done.
Qed.

Lemma soi_length (stream : bytes) :
  take 2 stream = bSOI → (2 <= length stream)%nat.
Proof.
  intros Hsoi. apply (f_equal length) in Hsoi.
  rewrite length_take in Hsoi. change (length bSOI) with 2%nat in Hsoi. lia.
Qed.

(** C2: for a stream that starts with FF D8 and any segment, the result
    has FF D8 at positions 0..1, the segment at positions 2..2+len-1, and
    the input from its offset 2 after that; nothing else changes. *)
Theorem embed_is_pure_insertion (stream seg : bytes) :
  take 2 stream = [xff; xd8] →
  ∃ out : bytes,
    embed_exif_in_jpeg stream seg = Ok out
    ∧ take 2 out = [xff; xd8]
    ∧ slice out 2 (2 + length seg) = seg
    ∧ drop (2 + length seg) out = drop 2 stream
    ∧ out = take 2 stream ++ seg ++ drop 2 stream.
Proof.
  intros Hsoi. exists (bSOI ++ seg ++ drop 2 stream).
  split; [by apply embed_soi |].
  split; [reflexivity |].
  split.
  - unfold slice.
    replace (2 + length seg - 2)%nat with (length seg) by lia.
    change (drop 2 (bSOI ++ seg ++ drop 2 stream)) with (seg ++ drop 2 stream).
    by rewrite take_app_length.
  - split; [| by rewrite Hsoi].
    change (drop (2 + length seg) (bSOI ++ seg ++ drop 2 stream))
      with (drop (length seg) (seg ++ drop 2 stream)).
    by rewrite drop_app_length.
Qed.

Lemma embed_is_pure_insertion_witness :
  ∃ out : bytes,
    embed_exif_in_jpeg [xff; xd8; xff; xd9] [x01; x02; x03] = Ok out
    ∧ take 2 out = [xff; xd8]
    ∧ slice out 2 (2 + length [x01; x02; x03]) = [x01; x02; x03]
    ∧ drop (2 + length [x01; x02; x03]) out = drop 2 [xff; xd8; xff; xd9]
    ∧ out = take 2 [xff; xd8; xff; xd9] ++ [x01; x02; x03] ++ drop 2 [xff; xd8; xff; xd9].
Proof.
  apply (embed_is_pure_insertion [xff; xd8; xff; xd9] [x01; x02; x03]).
  reflexivity.
Defined.

(** C5: the embedder fails exactly when the first two bytes of the input
    are not FF D8; the failure is the ValueError and carries no bytes. *)
Theorem embed_fails_iff_no_soi (stream seg : bytes) :
  ((∃ e, embed_exif_in_jpeg stream seg = Raise e) ↔ take 2 stream ≠ [xff; xd8])
  ∧ (take 2 stream ≠ [xff; xd8] ↔
     embed_exif_in_jpeg stream seg = Raise (ValueError "Not a valid JPEG file"))
  ∧ ((∃ out, embed_exif_in_jpeg stream seg = Ok out) ↔ take 2 stream = [xff; xd8]).
Proof.
  destruct (decide (take 2 stream = bSOI)) as [Hsoi | Hne].
  - rewrite (embed_soi _ _ Hsoi). change [xff; xd8] with bSOI.
    repeat split; try done.
    + by intros [e ?].
    + by eexists.
  - rewrite (embed_no_soi _ _ Hne). change [xff; xd8] with bSOI.
    repeat split; try done.
    + by eexists.
    + by intros [out ?].
Qed.

(** C10: for every input shorter than 2 bytes the two-byte prefix is the
    whole input (no read out of bounds), it differs from FF D8, and the
    embedder fails with the same ValueError. *)
Theorem embed_short_input_fails (stream seg : bytes) :
  (length stream < 2)%nat →
  take 2 stream = stream
  ∧ (length (take 2 stream) < 2)%nat
  ∧ take 2 stream ≠ [xff; xd8]
  ∧ embed_exif_in_jpeg stream seg = Raise (ValueError "Not a valid JPEG file").
Proof.
  intros Hlen.
  assert (Htake : take 2 stream = stream) by (apply take_ge; lia).
  assert (Hne : take 2 stream ≠ bSOI).
  { rewrite Htake. intros Heq. rewrite Heq in Hlen. cbn in Hlen. lia. }
  rewrite Htake at 1 2. auto using embed_no_soi.
Qed.

Lemma embed_short_input_fails_witness :
  take 2 [xff] = [xff]
  ∧ (length (take 2 [xff]) < 2)%nat
  ∧ take 2 [xff] ≠ [xff; xd8]
  ∧ embed_exif_in_jpeg [xff] [x01] = Raise (ValueError "Not a valid JPEG file").
Proof. apply (embed_short_input_fails [xff] [x01]). cbn. lia. Defined.

(** ** The raster *)

Lemma range_elem (n k : nat) : (k < n)%nat → In k (range 0 n).
Proof.
  intros Hk. unfold range. apply in_seq. lia.
Qed.

Lemma raster_matches_pixel (img : Image) (x y : nat) :
  raster_matches img = true → (x < 40)%nat → (y < 20)%nat →
  getpixel img (x, y) = Ok (region_colour x y).
Proof.
  unfold raster_matches. intros Hall Hx Hy.
  rewrite forallb_forall in Hall.
  specialize (Hall x (range_elem 40 x Hx)).
  rewrite forallb_forall in Hall.
  specialize (Hall y (range_elem 20 y Hy)).
  unfold pixel_matches in Hall.
  destruct (getpixel img (x, y)) as [c | e]; [| discriminate].
  apply bool_decide_eq_true in Hall. by rewrite Hall.
Qed.

Lemma create_asymmetric_image_ok :
  ∃ img : Image,
    create_asymmetric_image = Ok img
    ∧ im_width img = 40%nat ∧ im_height img = 20%nat
    ∧ length (im_data img) = 800%nat
    ∧ raster_matches img = true.
Proof.
  eexists. split; [vm_compute; reflexivity |].
  repeat split; vm_compute; reflexivity.
Qed.

(** C6: the generated 40x20 raster is red on x<10, y<10; blue on
    35<=x<40; green on x<35, 15<=y<20; white everywhere else.  Pixel (0,0)
    is red, (39,0) blue, (0,19) green and (20,10) white. *)
Theorem raster_has_four_regions :
  ∃ img : Image,
    create_asymmetric_image = Ok img
    ∧ im_width img = 40%nat ∧ im_height img = 20%nat
    ∧ (∀ x y : nat, (x < 40)%nat → (y < 20)%nat →
         ((x < 10)%nat → (y < 10)%nat → getpixel img (x, y) = Ok (255, 0, 0))
         ∧ ((35 ≤ x)%nat → getpixel img (x, y) = Ok (0, 0, 255))
         ∧ ((x < 35)%nat → (15 ≤ y)%nat → getpixel img (x, y) = Ok (0, 255, 0))
         ∧ (¬ (x < 10 ∧ y < 10)%nat → (x < 35)%nat → (y < 15)%nat →
              getpixel img (x, y) = Ok (255, 255, 255)))
    ∧ getpixel img (0, 0)%nat = Ok (255, 0, 0)
    ∧ getpixel img (39, 0)%nat = Ok (0, 0, 255)
    ∧ getpixel img (0, 19)%nat = Ok (0, 255, 0)
    ∧ getpixel img (20, 10)%nat = Ok (255, 255, 255).
Proof.
  destruct create_asymmetric_image_ok as (img & Himg & Hw & Hh & _ & Hall).
  exists img. do 3 (split; [assumption |]).
  split.
  - intros x y Hx Hy.
    rewrite (raster_matches_pixel img x y Hall Hx Hy). unfold region_colour.
    repeat split; intros; repeat case_decide; first [reflexivity | lia].
  - repeat split; by rewrite (raster_matches_pixel img _ _ Hall) by lia.
Qed.

(** ** End to end *)

(** C7: for orientation 6 and a baseline that starts with SOI, the value
    field read at its fixed offset in the fixture is 6, and the fixture is
    2 + len(segment) + (len(baseline) - 2) = len(baseline) + len(segment)
    bytes long. *)
Theorem orientation_six_end_to_end (baseline : bytes) :
  take 2 baseline = [xff; xd8] →
  ∃ seg fixture : bytes,
    create_minimal_exif_with_orientation 6 = Ok seg
    ∧ embed_exif_in_jpeg baseline seg = Ok fixture
    ∧ int_from_bytes_le (slice fixture value_field_offset (value_field_offset + 2)) = 6
    ∧ int_from_bytes_le (slice fixture value_field_offset (value_field_offset + 4)) = 6
    ∧ length fixture = (2 + length seg + (length baseline - 2))%nat
    ∧ length fixture = (length baseline + length seg)%nat.
Proof.
  intros Hsoi. pose proof (soi_length baseline Hsoi) as Hlen.
  exists (exif_segment_layout 6), (bSOI ++ exif_segment_layout 6 ++ drop 2 baseline).
  split; [reflexivity |].
  split; [by apply embed_soi |].
  split; [reflexivity |].
  split; [reflexivity |].
  rewrite !length_app, length_drop.
  change (length bSOI) with 2%nat. lia.
Qed.

Lemma orientation_six_end_to_end_witness :
  ∃ seg fixture : bytes,
    create_minimal_exif_with_orientation 6 = Ok seg
    ∧ embed_exif_in_jpeg [xff; xd8; xff; xd9] seg = Ok fixture
    ∧ int_from_bytes_le (slice fixture value_field_offset (value_field_offset + 2)) = 6
    ∧ int_from_bytes_le (slice fixture value_field_offset (value_field_offset + 4)) = 6
    ∧ length fixture = (2 + length seg + (length [xff; xd8; xff; xd9] - 2))%nat
    ∧ length fixture = (length [xff; xd8; xff; xd9] + length seg)%nat.
Proof. apply (orientation_six_end_to_end [xff; xd8; xff; xd9]). reflexivity. Defined.

(** ** The suite *)

Section SuiteProperties.

Variable save_jpeg : Image → Z → bytes.
Variable can_open : string → bool.

Lemma loop_body_soi (base : bytes) (n : Z) (name : string) (w : World) :
  take 2 base = bSOI → 0 <= n <= 65535 →
  main_loop_body can_open base (n, name) w =
  run_writes can_open
    [(fixture_filename n name, bSOI ++ exif_segment_layout n ++ drop 2 base)] w.
Proof.
  intros Hsoi Hn. unfold main_loop_body.
  rewrite create_minimal_exif_eq.
  destruct (decide (0 <= n <= 65535)) as [_ | Hout]; [| lia].
  unfold mbind, IO_bind, lift. rewrite (embed_soi _ _ Hsoi).
  unfold write_file, print. cbn [run_writes].
  destruct (can_open (fixture_filename n name)); reflexivity.
Qed.

Lemma loop_body_no_soi (base : bytes) (n : Z) (name : string) (w : World) :
  take 2 base ≠ bSOI → 0 <= n <= 65535 →
  main_loop_body can_open base (n, name) w =
  (Raise (ValueError "Not a valid JPEG file"), w).
Proof.
  intros Hne Hn. unfold main_loop_body.
  rewrite create_minimal_exif_eq.
  destruct (decide (0 <= n <= 65535)) as [_ | Hout]; [| lia].
  unfold mbind, IO_bind, lift. by rewrite (embed_no_soi _ _ Hne).
Qed.

Lemma run_writes_app (fs1 fs2 : list (string * bytes)) (w : World) :
  run_writes can_open (fs1 ++ fs2) w =
  match run_writes can_open fs1 w with
  | (Ok _, w1) => run_writes can_open fs2 w1
  | (Raise e, w1) => (Raise e, w1)
  end.
Proof.
  revert w. induction fs1 as [| [path data] fs1 IH]; intros w; [reflexivity |].
  cbn [app run_writes]. destruct (can_open path); [apply IH | reflexivity].
Qed.

Lemma run_writes_written (fs : list (string * bytes)) (w : World) :
  written (run_writes can_open fs w).2 =
  written w ++ take_while (fun f => can_open f.1) fs.
Proof.
  revert w. induction fs as [| [path data] fs IH]; intros w; cbn [run_writes take_while fst].
  - by rewrite app_nil_r.
  - destruct (can_open path); cbn [snd].
    + rewrite IH. cbn [written]. by rewrite <- app_assoc.
    + by rewrite app_nil_r.
Qed.

Lemma run_writes_ok_iff (fs : list (string * bytes)) (w : World) :
  (run_writes can_open fs w).1 = Ok tt ↔ Forall (fun f => can_open f.1 = true) fs.
Proof.
  revert w. induction fs as [| [path data] fs IH]; intros w; cbn [run_writes].
  - split; [constructor | reflexivity].
  - rewrite Forall_cons. cbn [fst].
    destruct (can_open path) eqn:Hopen.
    + rewrite IH. tauto.
    + cbn [fst]. split; [discriminate | intros [? _]; discriminate].
Qed.

Lemma run_writes_all_open (fs : list (string * bytes)) (w : World) :
  Forall (fun f => can_open f.1 = true) fs →
  run_writes can_open fs w =
  (Ok tt, mkWorld (written w ++ fs)
                  (stdout w ++ map (fun f => created_line f.1 f.2) fs)).
Proof.
  intros Hall. revert w.
  induction Hall as [| [path data] fs Hopen _ IH]; intros w; cbn [run_writes map].
  - rewrite !app_nil_r. by destruct w.
  - cbn [fst] in Hopen. rewrite Hopen, IH. cbn [written stdout fst snd].
    by rewrite <- !app_assoc.
Qed.

Lemma run_writes_raise (fs : list (string * bytes)) (w : World) (e : exn) :
  (run_writes can_open fs w).1 = Raise e →
  ∃ path, e = OSError path ∧ can_open path = false ∧ path ∈ fs.*1.
Proof.
  revert w. induction fs as [| [path data] fs IH]; intros w; cbn [run_writes].
  - discriminate.
  - destruct (can_open path) eqn:Hopen.
    + intros Hr. destruct (IH _ Hr) as (p & -> & Hp & Hin).
      exists p. rewrite fmap_cons, elem_of_cons. auto.
    + cbn [fst]. intros [= <-]. exists path.
      rewrite fmap_cons, elem_of_cons. auto.
Qed.

(** The loop of [main] over any items whose numbers fit 16 bits. *)
Lemma loop_soi (base : bytes) (items : list (Z * string)) (w : World) :
  take 2 base = bSOI →
  Forall (fun item => 0 <= item.1 <= 65535) items →
  foldM (fun _ item => main_loop_body can_open base item) tt items w =
  run_writes can_open
    (map (fun item : Z * string =>
            (fixture_filename item.1 item.2,
             [xff; xd8] ++ exif_segment_layout item.1 ++ drop 2 base)) items) w.
Proof.
  intros Hsoi Hall. revert w.
  induction Hall as [| [n name] items Hn _ IH]; intros w; [reflexivity |].
  cbn [foldM map fst snd]. unfold mbind at 1, IO_bind at 1.
  rewrite (loop_body_soi base n name w Hsoi Hn). cbn [run_writes].
  destruct (can_open (fixture_filename n name)); [apply IH | reflexivity].
Qed.

Lemma orientations_fit : Forall (fun item : Z * string => 0 <= item.1 <= 65535) orientations.
Proof. unfold orientations. repeat constructor; cbn; lia. Qed.

(** [main] on a baseline that starts with SOI. *)
Lemma main_soi (img : Image) (w : World) :
  create_asymmetric_image = Ok img →
  take 2 (save_jpeg img 95) = bSOI →
  main save_jpeg can_open w =
  match run_writes can_open (suite_fixtures (save_jpeg img 95))
          (mkWorld (written w)
             (stdout w ++ ["Creating test JPEG images with EXIF orientation tags..."])) with
  | (Ok _, w') =>
      (Ok tt, mkWorld (written w')
                (stdout w' ++ [String (Ascii.ascii_of_nat 10) "Done! Created 9 test images."]))
  | (Raise e, w') => (Raise e, w')
  end.
Proof.
  intros Himg Hsoi. unfold main, suite_fixtures.
  rewrite run_writes_app, <- (loop_soi _ _ _ Hsoi orientations_fit).
  unfold mbind at 1 2 3, IO_bind at 1 2 3, lift. rewrite Himg.
  cbn [print].
  match goal with
  | |- context [foldM ?b tt orientations ?w1] =>
      destruct (foldM b tt orientations w1) as [[[] | e] w2]
  end; [| reflexivity].
  unfold mbind, IO_bind, write_file, print. cbn [run_writes].
  destruct (can_open "exif_orientation_none.jpg"); reflexivity.
Qed.

(** [main] on a baseline that does not start with SOI. *)
Lemma main_no_soi (img : Image) (w : World) :
  create_asymmetric_image = Ok img →
  take 2 (save_jpeg img 95) ≠ bSOI →
  main save_jpeg can_open w =
  (Raise (ValueError "Not a valid JPEG file"),
   mkWorld (written w)
     (stdout w ++ ["Creating test JPEG images with EXIF orientation tags..."])).
Proof.
  intros Himg Hne. unfold main.
  unfold mbind at 1 2 3, IO_bind at 1 2 3, lift. rewrite Himg.
  cbn [print orientations foldM].
  unfold mbind at 1, IO_bind at 1.
  rewrite (loop_body_no_soi _ _ _ _ Hne) by lia. reflexivity.
Qed.

(** C8: with a codec whose output starts with SOI and the nine files
    writable, the suite writes exactly nine files: for n = 1..8 in
    ascending order the fixture exif_orientation_<n>_<name>.jpg, then
    exif_orientation_none.jpg holding the codec's output unchanged. *)
Theorem suite_writes_nine_fixtures (w : World) :
  (∀ im q, take 2 (save_jpeg im q) = [xff; xd8]) →
  (∀ path : string,
     path ∈ ["exif_orientation_1_normal.jpg";
             "exif_orientation_2_flip_horizontal.jpg";
             "exif_orientation_3_rotate_180.jpg";
             "exif_orientation_4_flip_vertical.jpg";
             "exif_orientation_5_transpose.jpg";
             "exif_orientation_6_rotate_90_cw.jpg";
             "exif_orientation_7_transverse.jpg";
             "exif_orientation_8_rotate_270_cw.jpg";
             "exif_orientation_none.jpg"] → can_open path = true) →
  ∃ (img : Image) (w' : World),
    create_asymmetric_image = Ok img
    ∧ main save_jpeg can_open w = (Ok tt, w')
    ∧ let base := save_jpeg img 95 in
      let fixture n := [xff; xd8] ++ exif_segment_layout n ++ drop 2 base in
      written w' = written w ++
        [("exif_orientation_1_normal.jpg", fixture 1);
         ("exif_orientation_2_flip_horizontal.jpg", fixture 2);
         ("exif_orientation_3_rotate_180.jpg", fixture 3);
         ("exif_orientation_4_flip_vertical.jpg", fixture 4);
         ("exif_orientation_5_transpose.jpg", fixture 5);
         ("exif_orientation_6_rotate_90_cw.jpg", fixture 6);
         ("exif_orientation_7_transverse.jpg", fixture 7);
         ("exif_orientation_8_rotate_270_cw.jpg", fixture 8);
         ("exif_orientation_none.jpg", base)].
Proof.
  intros Hsoi Hopen.
  destruct create_asymmetric_image_ok as (img & Himg & _).
  eexists img, _. split; [exact Himg |].
  rewrite (main_soi img w Himg (Hsoi img 95)).
  rewrite run_writes_all_open.
  - split; reflexivity.
  - unfold suite_fixtures, orientations. cbn [map app fst snd].
    repeat (apply Forall_cons; split; [apply Hopen; repeat constructor |]).
    apply Forall_nil_2.
Qed.

(** C9, amended: a failure aborts the suite.  The files written are the
    fixtures before the first one that fails (none at all when the
    baseline lacks the SOI marker, which fails the first embedding), the
    exception leaves [main], and [main] completes only when the baseline
    starts with SOI and every one of the nine files can be opened. *)
Theorem suite_stops_at_first_failure (w : World) :
  ∃ img : Image,
    create_asymmetric_image = Ok img
    ∧ let base := save_jpeg img 95 in
      let out := main save_jpeg can_open w in
      written out.2 =
        written w ++
        (if decide (take 2 base = [xff; xd8])
         then take_while (fun f => can_open f.1) (suite_fixtures base)
         else [])
      ∧ (out.1 = Ok tt ↔
         take 2 base = [xff; xd8]
         ∧ Forall (fun f => can_open f.1 = true) (suite_fixtures base))
      ∧ (take 2 base ≠ [xff; xd8] →
         out.1 = Raise (ValueError "Not a valid JPEG file"))
      ∧ (take 2 base = [xff; xd8] → ∀ e, out.1 = Raise e →
         ∃ path, e = OSError path ∧ can_open path = false
                 ∧ path ∈ (suite_fixtures base).*1).
Proof.
  destruct create_asymmetric_image_ok as (img & Himg & _).
  exists img. split; [exact Himg |]. cbn zeta.
  change [xff; xd8] with bSOI.
  destruct (decide (take 2 (save_jpeg img 95) = bSOI)) as [Hsoi | Hne].
  - rewrite (main_soi img w Himg Hsoi). clear Himg.
    generalize dependent (save_jpeg img 95). intros base Hsoi.
    set (w1 := mkWorld _ _).
    pose proof (run_writes_written (suite_fixtures base) w1) as Hwr.
    pose proof (run_writes_ok_iff (suite_fixtures base) w1) as Hok.
    pose proof (run_writes_raise (suite_fixtures base) w1) as Hra.
    destruct (run_writes can_open (suite_fixtures base) w1) as [[[] | e] w2].
    + cbn [fst snd written] in Hwr, Hok |- *.
      split; [exact Hwr |]. split; [tauto |].
      split; [intros Hne; by destruct Hne |].
      intros _ e He. discriminate He.
    + cbn [fst snd written] in Hwr, Hok, Hra |- *.
      split; [exact Hwr |]. split.
      * split; [discriminate |]. intros [_ Hall]. by apply Hok in Hall.
      * split; [intros Hne; by destruct Hne |].
        intros _ e' [= <-]. by apply Hra.
  - rewrite (main_no_soi img w Himg Hne). clear Himg.
    cbn [fst snd written]. rewrite app_nil_r.
    split; [reflexivity |]. split.
    + split; [discriminate |]. intros [Hsoi _]. by destruct Hne.
    + split; [reflexivity |]. intros Hsoi. by destruct Hne.
Qed.

End SuiteProperties.

(** C9, as stated, fails: when the third file cannot be opened the suite
    stops there.  The fourth fixture and the no-metadata fixture would each
    be produced on their own, yet only the first two files are written. *)
Lemma suite_aborts_on_third_failure :
  let out := main stub_codec third_fails empty_world in
  out.1 = Raise (OSError "exif_orientation_3_rotate_180.jpg")
  ∧ (written out.2).*1 =
      ["exif_orientation_1_normal.jpg"; "exif_orientation_2_flip_horizontal.jpg"]
  ∧ (main_loop_body third_fails [xff; xd8; xff; xd9] (4, "flip_vertical") empty_world).1
      = Ok tt
  ∧ (write_file third_fails "exif_orientation_none.jpg" [xff; xd8; xff; xd9] empty_world).1
      = Ok tt.
Proof. vm_compute. repeat split; reflexivity. Qed.

Lemma suite_writes_nine_fixtures_witness :
  ∃ (img : Image) (w' : World),
    create_asymmetric_image = Ok img
    ∧ main stub_codec always_open empty_world = (Ok tt, w')
    ∧ (written w').*1 =
        ["exif_orientation_1_normal.jpg";
         "exif_orientation_2_flip_horizontal.jpg";
         "exif_orientation_3_rotate_180.jpg";
         "exif_orientation_4_flip_vertical.jpg";
         "exif_orientation_5_transpose.jpg";
         "exif_orientation_6_rotate_90_cw.jpg";
         "exif_orientation_7_transverse.jpg";
         "exif_orientation_8_rotate_270_cw.jpg";
         "exif_orientation_none.jpg"].
Proof.
  destruct (suite_writes_nine_fixtures stub_codec always_open empty_world)
    as (img & w' & Himg & Hmain & Hw).
  - intros im q. reflexivity.
  - intros path _. reflexivity.
  - exists img, w'. split; [exact Himg |]. split; [exact Hmain |].
    cbn zeta in Hw. rewrite Hw. reflexivity.
Defined.

(** * Further properties *)

(** ** Integers and bytes *)

Lemma Z_of_byte_of_Z (z : Z) : Z_of_byte (byte_of_Z z) = z mod 256.
Proof.
  unfold Z_of_byte, byte_of_Z.
  pose proof (Z.mod_pos_bound z 256 ltac:(lia)) as Hmod.
  destruct (Byte.of_N (Z.to_N (z mod 256))) as [b |] eqn:Hb.
  - apply Byte.to_of_N in Hb. rewrite Hb. lia.
  - apply Byte.of_N_None_iff in Hb. lia.
Qed.

Lemma int_to_bytes_le_length (width : nat) (v : Z) :
  length (int_to_bytes_le width v) = width.
Proof.
  revert v. induction width as [| w IH]; intros v; cbn [int_to_bytes_le length]; [done |].
  by rewrite IH.
Qed.

Lemma int_from_to_bytes_le (width : nat) (v : Z) :
  int_from_bytes_le (int_to_bytes_le width v) = v mod 256 ^ Z.of_nat width.
Proof.
  revert v. induction width as [| w IH]; intros v.
  - cbn [int_to_bytes_le int_from_bytes_le]. change (256 ^ Z.of_nat 0) with 1.
    by rewrite Z.mod_1_r.
  - cbn [int_to_bytes_le int_from_bytes_le].
    rewrite IH, Z_of_byte_of_Z, Z.mod_mod by lia.
    rewrite Nat2Z.inj_succ, Z.pow_succ_r by lia.
    rewrite (Z.rem_mul_r v 256 (256 ^ Z.of_nat w)) by lia. reflexivity.
Qed.

Lemma int_from_bytes_le_app (a b : bytes) :
  int_from_bytes_le (a ++ b) =
  int_from_bytes_le a + 256 ^ Z.of_nat (length a) * int_from_bytes_le b.
Proof.
  induction a as [| x a IH]; cbn [app int_from_bytes_le length].
  - change (256 ^ Z.of_nat 0) with 1. lia.
  - rewrite IH, Nat2Z.inj_succ, Z.pow_succ_r by lia. lia.
Qed.

Lemma fmt_max_pow (f : fmt) : fmt_max f = 256 ^ Z.of_nat (fmt_size f) - 1.
Proof. destruct f; reflexivity. Qed.

(** ** [struct.pack] *)

(** X1: a packed field read back with the same byte order is the value that
    was packed, and it takes exactly the size of its format. *)
Theorem pack_field_round_trip (bo : byteorder) (f : fmt) (v : Z) :
  0 <= v <= fmt_max f →
  ∃ bs : bytes,
    struct_pack bo [f] [v] = Ok bs
    ∧ length bs = fmt_size f
    ∧ match bo with
      | LittleEndian => int_from_bytes_le bs
      | BigEndian => int_from_bytes_be bs
      end = v.
Proof.
  intros Hv. cbn [struct_pack]. unfold pack_field.
  destruct (decide (0 <= v <= fmt_max f)) as [_ | Hout]; [| lia].
  rewrite fmt_max_pow in Hv.
  eexists. split; [reflexivity |]. rewrite app_nil_r.
  destruct bo; unfold int_to_bytes_be, int_from_bytes_be.
  - by rewrite int_to_bytes_le_length, int_from_to_bytes_le, Z.mod_small by lia.
  - by rewrite rev_involutive, length_rev, int_to_bytes_le_length,
      int_from_to_bytes_le, Z.mod_small by lia.
Qed.

Lemma pack_field_round_trip_witness :
  ∃ bs : bytes,
    struct_pack BigEndian [H] [34] = Ok bs
    ∧ length bs = fmt_size H
    ∧ int_from_bytes_be bs = 34.
Proof. apply (pack_field_round_trip BigEndian H 34). cbn. lia. Defined.

(** X2: [struct.pack] succeeds exactly when there are as many values as
    format characters and every value fits its unsigned field; the result
    is then as long as the sizes of the fields together, and any other
    call raises struct.error. *)
Theorem struct_pack_succeeds_iff_fits (bo : byteorder) (fs : list fmt) (vs : list Z) :
  if decide (Forall2 (fun f v => 0 <= v <= fmt_max f) fs vs) then
    ∃ bs : bytes,
      struct_pack bo fs vs = Ok bs
      ∧ length bs = sum_list (fmt_size <$> fs)
  else struct_pack bo fs vs = Raise StructError.
Proof.
  destruct (decide (Forall2 (fun f v => 0 <= v <= fmt_max f) fs vs)) as [Hfit | Hno].
  - induction Hfit as [| f v fs vs Hv _ (rest & Hrest & Hlen)].
    + by exists [].
    + cbn [struct_pack]. unfold pack_field.
      destruct (decide (0 <= v <= fmt_max f)) as [_ | Hout]; [| lia].
      rewrite Hrest. eexists. split; [reflexivity |].
      rewrite length_app, Hlen, fmap_cons. cbn [sum_list sum_list_with].
      f_equal. destruct bo; unfold int_to_bytes_be;
        by rewrite ?length_rev, int_to_bytes_le_length.
  - revert vs Hno. induction fs as [| f fs IH]; intros [| v vs] Hno;
      cbn [struct_pack]; try reflexivity.
    + destruct Hno. constructor.
    + unfold pack_field.
      destruct (decide (0 <= v <= fmt_max f)) as [Hv | Hout]; [| reflexivity].
      rewrite IH; [reflexivity |].
      intros Hrest. apply Hno. by constructor.
Qed.

(** ** The builder, for every orientation that packs *)

Lemma value_field_reads (n : Z) :
  0 <= n <= 65535 →
  int_from_bytes_le (int_to_bytes_le 2 n) = n
  ∧ int_from_bytes_le (int_to_bytes_le 2 n ++ [x00; x00]) = n.
Proof.
  intros Hn.
  assert (H2 : int_from_bytes_le (int_to_bytes_le 2 n) = n).
  { rewrite int_from_to_bytes_le. apply Z.mod_small.
    change (256 ^ Z.of_nat 2) with 65536. lia. }
  split; [exact H2 |].
  rewrite int_from_bytes_le_app, H2.
  change (int_from_bytes_le [x00; x00]) with 0. lia.
Qed.

(** X3: reading the value field back (as the SHORT at offset 28 of the
    segment, or as the whole 4-byte slot) returns the orientation that was
    asked for, for every orientation that fits 16 bits. *)
Theorem builder_value_round_trip (n : Z) :
  0 <= n <= 65535 →
  ∃ seg : bytes,
    create_minimal_exif_with_orientation n = Ok seg
    ∧ int_from_bytes_le (slice seg 28 30) = n
    ∧ int_from_bytes_le (slice seg 28 32) = n.
Proof.
  intros Hn. rewrite create_minimal_exif_eq.
  destruct (decide (0 <= n <= 65535)) as [_ | Hout]; [| lia].
  exists (exif_segment_layout n). split; [reflexivity |].
  change (slice (exif_segment_layout n) 28 30) with (int_to_bytes_le 2 n).
  change (slice (exif_segment_layout n) 28 32) with (int_to_bytes_le 2 n ++ [x00; x00]).
  by apply value_field_reads.
Qed.

Lemma builder_value_round_trip_witness :
  ∃ seg : bytes,
    create_minimal_exif_with_orientation 300 = Ok seg
    ∧ int_from_bytes_le (slice seg 28 30) = 300
    ∧ int_from_bytes_le (slice seg 28 32) = 300.
Proof. apply (builder_value_round_trip 300). lia. Defined.

(** X4: two segments that the builder returns are both 36 bytes long and can
    differ only in bytes 28 and 29, the SHORT of the value field. *)
Theorem builder_segments_differ_in_value_only (n m : Z) (sn sm : bytes) :
  create_minimal_exif_with_orientation n = Ok sn →
  create_minimal_exif_with_orientation m = Ok sm →
  length sn = 36%nat ∧ length sm = 36%nat
  ∧ take 28 sn = take 28 sm
  ∧ drop 30 sn = drop 30 sm.
Proof.
  rewrite !create_minimal_exif_eq.
  destruct (decide (0 <= n <= 65535)); [| discriminate].
  destruct (decide (0 <= m <= 65535)); [| discriminate].
  intros [= <-] [= <-]. repeat split; reflexivity.
Qed.

Lemma builder_segments_differ_in_value_only_witness :
  length (exif_segment_layout 1) = 36%nat ∧ length (exif_segment_layout 8) = 36%nat
  ∧ take 28 (exif_segment_layout 1) = take 28 (exif_segment_layout 8)
  ∧ drop 30 (exif_segment_layout 1) = drop 30 (exif_segment_layout 8).
Proof.
  apply (builder_segments_differ_in_value_only 1 8); reflexivity.
Defined.

(** X5: the builder is injective: equal segments come from equal
    orientations. *)
Theorem builder_injective (n m : Z) (seg : bytes) :
  create_minimal_exif_with_orientation n = Ok seg →
  create_minimal_exif_with_orientation m = Ok seg →
  n = m.
Proof.
  rewrite !create_minimal_exif_eq.
  destruct (decide (0 <= n <= 65535)) as [Hn |]; [| discriminate].
  destruct (decide (0 <= m <= 65535)) as [Hm |]; [| discriminate].
  intros H1 H2.
  assert (Heq : Ok (exif_segment_layout n) = Ok (exif_segment_layout m))
    by (by rewrite H1, H2).
  apply (f_equal (fun r => match r with
                           | Ok s => int_from_bytes_le (slice s 28 30)
                           | Raise _ => 0
                           end)) in Heq.
  change (int_from_bytes_le (int_to_bytes_le 2 n) =
          int_from_bytes_le (int_to_bytes_le 2 m)) in Heq.
  destruct (value_field_reads n Hn) as [Hrn _].
  destruct (value_field_reads m Hm) as [Hrm _].
  congruence.
Qed.

Lemma builder_injective_witness : 6 = 6.
Proof.
  apply (builder_injective 6 6 (exif_segment_layout 6)); reflexivity.
Defined.

(** X6: the TIFF block of a segment is consistent with its own pointers: it
    starts 10 bytes into the segment with "II" and the magic number 42,
    its first-IFD offset leads to an entry count of 1, the entry there is
    tag 0x0112 of type SHORT with count 1 and the orientation as value,
    the next-IFD offset after it is 0, and the IFD ends where the segment
    ends. *)
Theorem builder_tiff_is_self_consistent (n : Z) :
  0 <= n <= 65535 →
  ∃ seg : bytes,
    create_minimal_exif_with_orientation n = Ok seg
    ∧ let tiff := drop 10 seg in
      let ifd := Z.to_nat (int_from_bytes_le (slice tiff 4 8)) in
      let entries := Z.to_nat (int_from_bytes_le (slice tiff ifd (ifd + 2))) in
      slice seg 4 10 = bExif00
      ∧ slice tiff 0 2 = bII
      ∧ int_from_bytes_le (slice tiff 2 4) = 42
      ∧ ifd = 8%nat
      ∧ entries = 1%nat
      ∧ int_from_bytes_le (slice tiff (ifd + 2) (ifd + 4)) = 0x0112
      ∧ int_from_bytes_le (slice tiff (ifd + 4) (ifd + 6)) = 3
      ∧ int_from_bytes_le (slice tiff (ifd + 6) (ifd + 10)) = 1
      ∧ int_from_bytes_le (slice tiff (ifd + 10) (ifd + 12)) = n
      ∧ int_from_bytes_le (slice tiff (ifd + 2 + 12 * entries) (ifd + 2 + 12 * entries + 4)) = 0
      ∧ length tiff = (ifd + 2 + 12 * entries + 4)%nat.
Proof.
  intros Hn. rewrite create_minimal_exif_eq.
  destruct (decide (0 <= n <= 65535)) as [_ | Hout]; [| lia].
  exists (exif_segment_layout n). split; [reflexivity |]. cbn zeta.
  change (Z.to_nat (int_from_bytes_le (slice (drop 10 (exif_segment_layout n)) 4 8)))
    with 8%nat.
  change (slice (drop 10 (exif_segment_layout n)) (8 + 10) (8 + 12))
    with (int_to_bytes_le 2 n).
  destruct (value_field_reads n Hn) as [Hr _].
  repeat split; first [exact Hr | reflexivity].
Qed.

Lemma builder_tiff_is_self_consistent_witness :
  ∃ seg : bytes,
    create_minimal_exif_with_orientation 6 = Ok seg
    ∧ let tiff := drop 10 seg in
      let ifd := Z.to_nat (int_from_bytes_le (slice tiff 4 8)) in
      let entries := Z.to_nat (int_from_bytes_le (slice tiff ifd (ifd + 2))) in
      slice seg 4 10 = bExif00
      ∧ slice tiff 0 2 = bII
      ∧ int_from_bytes_le (slice tiff 2 4) = 42
      ∧ ifd = 8%nat
      ∧ entries = 1%nat
      ∧ int_from_bytes_le (slice tiff (ifd + 2) (ifd + 4)) = 0x0112
      ∧ int_from_bytes_le (slice tiff (ifd + 4) (ifd + 6)) = 3
      ∧ int_from_bytes_le (slice tiff (ifd + 6) (ifd + 10)) = 1
      ∧ int_from_bytes_le (slice tiff (ifd + 10) (ifd + 12)) = 6
      ∧ int_from_bytes_le (slice tiff (ifd + 2 + 12 * entries) (ifd + 2 + 12 * entries + 4)) = 0
      ∧ length tiff = (ifd + 2 + 12 * entries + 4)%nat.
Proof. apply (builder_tiff_is_self_consistent 6). lia. Defined.

(** ** The embedder, further *)

(** X7: taking the inserted segment out again gives back the input: the
    output is as long as input and segment together, and its first two
    bytes followed by what comes after the segment are the input. *)
Theorem embed_can_be_undone (stream seg out : bytes) :
  embed_exif_in_jpeg stream seg = Ok out →
  length out = (length stream + length seg)%nat
  ∧ take 2 out ++ drop (2 + length seg) out = stream.
Proof.
  unfold embed_exif_in_jpeg.
  destruct (decide (take 2 stream ≠ bSOI)) as [| Hsoi]; [discriminate |].
  apply dec_stable in Hsoi. intros [= <-].
  pose proof (soi_length stream Hsoi) as Hlen. split.
  - rewrite !length_app, length_take, length_drop. lia.
  - rewrite Hsoi.
    change (take 2 (bSOI ++ seg ++ drop 2 stream)) with bSOI.
    change (drop (2 + length seg) (bSOI ++ seg ++ drop 2 stream))
      with (drop (length seg) (seg ++ drop 2 stream)).
    rewrite drop_app_length, <- Hsoi. apply take_drop.
Qed.

Lemma embed_can_be_undone_witness :
  length [xff; xd8; x01; x02; xff; xd9] = (length [xff; xd8; xff; xd9] + length [x01; x02])%nat
  ∧ take 2 [xff; xd8; x01; x02; xff; xd9]
      ++ drop (2 + length [x01; x02]) [xff; xd8; x01; x02; xff; xd9]
    = [xff; xd8; xff; xd9].
Proof.
  apply (embed_can_be_undone [xff; xd8; xff; xd9] [x01; x02]). reflexivity.
Defined.

(** X8: an output of the embedder is again an input it accepts: a second
    embedding never fails, keeps the first segment, and puts the second
    one in front of it. *)
Theorem embed_twice_stacks (stream a b out : bytes) :
  embed_exif_in_jpeg stream a = Ok out →
  take 2 out = [xff; xd8]
  ∧ embed_exif_in_jpeg out b = Ok ([xff; xd8] ++ b ++ a ++ drop 2 stream).
Proof.
  unfold embed_exif_in_jpeg at 1.
  destruct (decide (take 2 stream ≠ bSOI)) as [| Hsoi]; [discriminate |].
  apply dec_stable in Hsoi. intros [= <-]. rewrite Hsoi.
  split; [reflexivity |]. by rewrite embed_soi.
Qed.

Lemma embed_twice_stacks_witness :
  take 2 [xff; xd8; x01; xff; xd9] = [xff; xd8]
  ∧ embed_exif_in_jpeg [xff; xd8; x01; xff; xd9] [x02] =
      Ok ([xff; xd8] ++ [x02] ++ [x01] ++ drop 2 [xff; xd8; xff; xd9]).
Proof.
  apply (embed_twice_stacks [xff; xd8; xff; xd9] [x01] [x02]). reflexivity.
Defined.

(** X9: the embedder returns its input unchanged exactly when the input
    starts with FF D8 and the segment is empty. *)
Theorem embed_identity_iff_empty_segment (stream seg : bytes) :
  embed_exif_in_jpeg stream seg = Ok stream ↔ take 2 stream = [xff; xd8] ∧ seg = [].
Proof.
  change [xff; xd8] with bSOI. split.
  - intros Hout. unfold embed_exif_in_jpeg in Hout.
    destruct (decide (take 2 stream ≠ bSOI)) as [| Hsoi]; [discriminate |].
    apply dec_stable in Hsoi. split; [exact Hsoi |].
    injection Hout as Hout. apply (f_equal length) in Hout.
    rewrite !length_app, length_take, length_drop in Hout.
    pose proof (soi_length stream Hsoi). apply length_zero_iff_nil. lia.
  - intros [Hsoi ->]. rewrite (embed_soi _ _ Hsoi), <- Hsoi. f_equal.
    apply take_drop.
Qed.

(** X10: two fixtures built over the same baseline are equally long,
    len(baseline) + 36, agree on their first 30 bytes and from byte 32 on,
    and are equal only if the orientations are. *)
Theorem fixtures_differ_in_value_only (base : bytes) (n m : Z) (sn sm fn fm : bytes) :
  create_minimal_exif_with_orientation n = Ok sn →
  embed_exif_in_jpeg base sn = Ok fn →
  create_minimal_exif_with_orientation m = Ok sm →
  embed_exif_in_jpeg base sm = Ok fm →
  length fn = (length base + 36)%nat
  ∧ length fm = (length base + 36)%nat
  ∧ take 30 fn = take 30 fm
  ∧ drop 32 fn = drop 32 fm
  ∧ (fn = fm → n = m).
Proof.
  rewrite !create_minimal_exif_eq.
  destruct (decide (0 <= n <= 65535)) as [Hn |]; [| discriminate].
  destruct (decide (0 <= m <= 65535)) as [Hm |]; [| discriminate].
  intros [= <-] Hfn [= <-] Hfm.
  unfold embed_exif_in_jpeg in Hfn, Hfm.
  destruct (decide (take 2 base ≠ bSOI)) as [| Hsoi]; [discriminate |].
  apply dec_stable in Hsoi. rewrite Hsoi in Hfn, Hfm.
  assert (fn = bSOI ++ exif_segment_layout n ++ drop 2 base) as -> by congruence.
  assert (fm = bSOI ++ exif_segment_layout m ++ drop 2 base) as -> by congruence.
  clear Hfn Hfm. pose proof (soi_length base Hsoi) as Hlen.
  split; [| split; [| split; [| split]]].
  - rewrite !length_app, length_drop. change (length bSOI) with 2%nat.
    change (length (exif_segment_layout n)) with 36%nat. lia.
  - rewrite !length_app, length_drop. change (length bSOI) with 2%nat.
    change (length (exif_segment_layout m)) with 36%nat. lia.
  - reflexivity.
  - reflexivity.
  - intros Heq.
    apply (f_equal (fun s => int_from_bytes_le (slice s 30 32))) in Heq.
    change (int_from_bytes_le (int_to_bytes_le 2 n) =
            int_from_bytes_le (int_to_bytes_le 2 m)) in Heq.
    destruct (value_field_reads n Hn) as [Hrn _].
    destruct (value_field_reads m Hm) as [Hrm _].
    congruence.
Qed.

Lemma fixtures_differ_in_value_only_witness :
  length ([xff; xd8] ++ exif_segment_layout 1 ++ [xff; xd9]) = (length [xff; xd8; xff; xd9] + 36)%nat
  ∧ length ([xff; xd8] ++ exif_segment_layout 6 ++ [xff; xd9]) = (length [xff; xd8; xff; xd9] + 36)%nat
  ∧ take 30 ([xff; xd8] ++ exif_segment_layout 1 ++ [xff; xd9])
    = take 30 ([xff; xd8] ++ exif_segment_layout 6 ++ [xff; xd9])
  ∧ drop 32 ([xff; xd8] ++ exif_segment_layout 1 ++ [xff; xd9])
    = drop 32 ([xff; xd8] ++ exif_segment_layout 6 ++ [xff; xd9])
  ∧ ([xff; xd8] ++ exif_segment_layout 1 ++ [xff; xd9]
     = [xff; xd8] ++ exif_segment_layout 6 ++ [xff; xd9] → 1 = 6).
Proof.
  apply (fixtures_differ_in_value_only [xff; xd8; xff; xd9] 1 6
           (exif_segment_layout 1) (exif_segment_layout 6)); reflexivity.
Defined.

(** ** What the suite reports *)

Section SuiteReport.

Variable save_jpeg : Image → Z → bytes.
Variable can_open : string → bool.

Lemma take_while_is_take {A} (p : A → bool) (l : list A) :
  take_while p l = take (length (take_while p l)) l.
Proof.
  induction l as [| x l IH]; cbn [take_while]; [reflexivity |].
  destruct (p x); cbn [length take]; [by rewrite <- IH | reflexivity].
Qed.

Lemma run_writes_stdout (fs : list (string * bytes)) (w : World) :
  stdout (run_writes can_open fs w).2 =
  stdout w ++ map (fun f => created_line f.1 f.2) (take_while (fun f => can_open f.1) fs).
Proof.
  revert w. induction fs as [| [path data] fs IH]; intros w;
    cbn [run_writes take_while fst snd].
  - by rewrite app_nil_r.
  - destruct (can_open path); cbn [snd map].
    + rewrite IH. cbn [stdout fst snd]. by rewrite <- app_assoc.
    + by rewrite app_nil_r.
Qed.

(** Every run of [main]: the files it adds and the lines it prints. *)
Lemma main_trace (w : World) :
  ∃ (img : Image) (new : list (string * bytes)),
    create_asymmetric_image = Ok img
    ∧ (∃ k : nat, new = take k (suite_fixtures (save_jpeg img 95)))
    ∧ written (main save_jpeg can_open w).2 = written w ++ new
    ∧ stdout (main save_jpeg can_open w).2 =
        stdout w ++ [banner_line] ++ map (fun f => created_line f.1 f.2) new ++
        match (main save_jpeg can_open w).1 with
        | Ok _ => [done_line]
        | Raise _ => []
        end.
Proof.
  destruct create_asymmetric_image_ok as (img & Himg & _).
  exists img.
  destruct (decide (take 2 (save_jpeg img 95) = bSOI)) as [Hsoi | Hne].
  - exists (take_while (fun f => can_open f.1) (suite_fixtures (save_jpeg img 95))).
    split; [exact Himg |].
    split; [eexists; apply take_while_is_take |].
    rewrite (main_soi _ _ img w Himg Hsoi). clear Himg.
    generalize dependent (save_jpeg img 95). intros base Hsoi.
    set (w1 := mkWorld _ _).
    pose proof (run_writes_written can_open (suite_fixtures base) w1) as Hwr.
    pose proof (run_writes_stdout (suite_fixtures base) w1) as Hso.
    destruct (run_writes can_open (suite_fixtures base) w1) as [[[] | e] w2];
      subst w1; cbn [fst snd written stdout] in Hwr, Hso |- *.
    + split; [exact Hwr |]. rewrite Hso, <- !app_assoc. reflexivity.
    + split; [exact Hwr |]. rewrite Hso, app_nil_r, <- !app_assoc. reflexivity.
  - exists []. split; [exact Himg |]. split; [exists 0%nat; reflexivity |].
    rewrite (main_no_soi _ _ img w Himg Hne). clear Himg.
    cbn [fst snd written stdout map app].
    rewrite app_nil_r. split; reflexivity.
Qed.

Lemma created_line_not_done (path : string) (data : bytes) :
  created_line path data ≠ done_line.
Proof. discriminate. Qed.

(** X11: [main] prints its banner, then one "Created" line with name and size
    for each file it wrote, in the order written, and the closing line only
    if it returned; what was written and printed before stays in front. *)
Theorem main_reports_what_it_wrote (w : World) :
  ∃ new : list (string * bytes),
    written (main save_jpeg can_open w).2 = written w ++ new
    ∧ stdout (main save_jpeg can_open w).2 =
        stdout w ++ [banner_line] ++ map (fun f => created_line f.1 f.2) new ++
        match (main save_jpeg can_open w).1 with
        | Ok _ => [done_line]
        | Raise _ => []
        end.
Proof.
  destruct (main_trace w) as (img & new & _ & _ & Hwr & Hso).
  exists new. split; assumption.
Qed.

(** X12: the closing line "Done! Created 9 test images." is the last line
    printed exactly when [main] returns without an exception. *)
Theorem main_done_iff_success (w : World) :
  (main save_jpeg can_open w).1 = Ok tt ↔
  last (stdout (main save_jpeg can_open w).2) = Some done_line.
Proof.
  destruct (main_trace w) as (img & new & _ & _ & _ & Hso). rewrite Hso. clear Hso.
  destruct ((main save_jpeg can_open w).1) as [[] | e].
  - rewrite !app_assoc, last_snoc. split; reflexivity.
  - rewrite app_nil_r. split; [discriminate |]. intros Hlast. exfalso.
    destruct new as [| f new _] using rev_ind.
    + cbn [map] in Hlast. rewrite app_nil_r, last_snoc in Hlast. discriminate Hlast.
    + rewrite map_app in Hlast. cbn [map] in Hlast.
      rewrite !app_assoc, last_snoc in Hlast.
      apply (created_line_not_done f.1 f.2). congruence.
Qed.

(** X13: whatever the codec returns and whichever files can be opened, the
    names of the files [main] writes are the first k of the nine fixture
    names, in that order; the nine names are pairwise different, so no
    file is written twice and none outside the nine is written. *)
Theorem main_writes_a_prefix_of_the_names (w : World) :
  ∃ (new : list (string * bytes)) (k : nat),
    written (main save_jpeg can_open w).2 = written w ++ new
    ∧ new.*1 = take k fixture_names
    ∧ NoDup new.*1
    ∧ (length new ≤ 9)%nat.
Proof.
  destruct (main_trace w) as (img & new & _ & [k ->] & Hwr & _).
  exists (take k (suite_fixtures (save_jpeg img 95))), k.
  split; [exact Hwr |].
  assert (Hnames : (take k (suite_fixtures (save_jpeg img 95))).*1 = take k fixture_names).
  { rewrite fmap_take. reflexivity. }
  split; [exact Hnames |]. split.
  - rewrite Hnames. apply (sublist_NoDup _ fixture_names); [| apply sublist_take].
    apply (bool_decide_unpack _). vm_compute. constructor.
  - rewrite length_take. change (length (suite_fixtures (save_jpeg img 95))) with 9%nat. lia.
Qed.

End SuiteReport.

(** ** The page layout of the PDF fixtures *)

Lemma draw_lines_cons (height : Z) (line : string) (rest : list string) (y : Z) :
  draw_lines height (line :: rest) y =
  let y1 := if decide (y - 18 < 50) then height - 50 else y - 18 in
  ((if decide (line ≠ EmptyString) then [drawString 72 y line] else []) ++
   (if decide (y - 18 < 50) then [showPage] else []) ++
   (draw_lines height rest y1).1,
   (draw_lines height rest y1).2).
Proof.
  cbn [draw_lines]. destruct (decide (y - 18 < 50)); cbn zeta;
    by destruct (draw_lines height rest _).
Qed.

(** X14: on a page at least 100 points high, a loop that starts at 50 or
    above never draws below 50: every [drawString] of the loop is at
    x = 72 and at a height between 50 and the larger of the start and
    [height - 50], and the position after the loop is again 50 or more. *)
Theorem draw_lines_stays_above_margin (height : Z) (lines : list string) (y : Z) :
  100 <= height → 50 <= y →
  50 <= (draw_lines height lines y).2
  ∧ ∀ (x y' : Z) (text : string),
      drawString x y' text ∈ (draw_lines height lines y).1 →
      x = 72 ∧ 50 <= y' <= Z.max y (height - 50).
Proof.
  intros Hh. revert y. induction lines as [| line rest IH]; intros y Hy.
  - cbn [draw_lines fst snd]. split; [lia |]. intros x y' text Hin.
    by apply elem_of_nil in Hin.
  - rewrite draw_lines_cons. cbn zeta. cbn [fst snd].
    set (y1 := if decide (y - 18 < 50) then height - 50 else y - 18).
    assert (Hy1 : 50 <= y1 ∧ Z.max y1 (height - 50) <= Z.max y (height - 50))
      by (subst y1; case_decide; lia).
    destruct (IH y1 (proj1 Hy1)) as [Hend Hcalls]. split; [exact Hend |].
    intros x y' text Hin. rewrite !elem_of_app in Hin.
    destruct Hin as [Hin | [Hin | Hin]].
    + case_decide; [| by apply elem_of_nil in Hin].
      apply list_elem_of_singleton in Hin. injection Hin as -> -> _. lia.
    + case_decide; [| by apply elem_of_nil in Hin].
      apply list_elem_of_singleton in Hin. discriminate Hin.
    + destruct (Hcalls x y' text Hin) as [-> Hb]. lia.
Qed.

Lemma draw_lines_stays_above_margin_witness :
  50 <= (draw_lines 792 english_lines 60).2
  ∧ ∀ (x y' : Z) (text : string),
      drawString x y' text ∈ (draw_lines 792 english_lines 60).1 →
      x = 72 ∧ 50 <= y' <= Z.max 60 (792 - 50).
Proof. apply (draw_lines_stays_above_margin 792 english_lines 60); lia. Defined.

(** X15: the loop draws exactly the lines that are not empty, in their order;
    an empty line only moves the position. *)
Theorem draw_lines_draws_nonempty_lines (height : Z) (lines : list string) (y : Z) :
  drawn_texts (draw_lines height lines y).1 = filter (fun line => line ≠ EmptyString) lines.
Proof.
  revert y. induction lines as [| line rest IH]; intros y; [reflexivity |].
  rewrite draw_lines_cons. cbn zeta. cbn [fst]. unfold drawn_texts in *.
  rewrite !omap_app, IH, filter_cons.
  destruct (decide (line ≠ EmptyString)); destruct (decide (y - 18 < 50)); reflexivity.
Qed.

Lemma draw_lines_breaks_page_iff_aux (height : Z) (lines : list string) (y : Z) :
  50 <= y →
  showPage ∈ (draw_lines height lines y).1 ↔ y - 18 * Z.of_nat (length lines) < 50.
Proof.
  revert y. induction lines as [| line rest IH]; intros y Hy.
  - cbn [draw_lines fst length]. rewrite elem_of_nil. lia.
  - rewrite draw_lines_cons. cbn zeta. cbn [fst length]. rewrite !elem_of_app.
    destruct (decide (y - 18 < 50)) as [Hlow | Hfit].
    + split; [lia |]. intros _. right. left. apply list_elem_of_singleton. reflexivity.
    + rewrite (IH (y - 18)) by lia. rewrite elem_of_nil. split.
      * intros [Hin | [[] | Hlt]]; [| lia].
        case_decide; [| by apply elem_of_nil in Hin].
        apply list_elem_of_singleton in Hin. discriminate Hin.
      * intros Hlt. right. right. lia.
Qed.

(** X16: a loop that starts at 50 or above starts a new page exactly when its
    lines do not fit: [showPage] is called if and only if 18 points per
    line lead below 50. *)
Theorem draw_lines_breaks_page_iff (height : Z) (lines : list string) (y : Z) :
  50 <= y →
  showPage ∈ (draw_lines height lines y).1 ↔ y - 18 * Z.of_nat (length lines) < 50.
Proof. apply draw_lines_breaks_page_iff_aux. Qed.

Lemma draw_lines_breaks_page_iff_witness :
  showPage ∈ (draw_lines 792 english_lines 672).1 ↔
  672 - 18 * Z.of_nat (length english_lines) < 50.
Proof. apply (draw_lines_breaks_page_iff 792 english_lines 672). lia. Defined.

(** X17: when the lines fit on the page, line number i (from 0) is drawn at
    [y - 18 * i] if it is not empty, nothing else is called, and the loop
    ends at [y - 18 * len(lines)]. *)
Theorem draw_lines_on_one_page (height : Z) (lines : list string) (y : Z) :
  50 <= y - 18 * Z.of_nat (length lines) →
  draw_lines height lines y =
  (mjoin (imap (fun (i : nat) (line : string) =>
                  if decide (line ≠ EmptyString)
                  then [drawString 72 (y - 18 * Z.of_nat i) line] else []) lines),
   y - 18 * Z.of_nat (length lines)).
Proof.
  revert y. induction lines as [| line rest IH]; intros y Hfit.
  - cbn [draw_lines length imap mjoin list_join]. f_equal. lia.
  - rewrite draw_lines_cons. cbn zeta. cbn [length] in Hfit |- *.
    destruct (decide (y - 18 < 50)) as [Hlow | _]; [lia |].
    rewrite (IH (y - 18)) by lia. cbn [fst snd app].
    rewrite imap_cons. cbn [mjoin list_join]. f_equal.
    + rewrite Z.mul_0_r, Z.sub_0_r. f_equal. f_equal.
      apply imap_ext. intros i l _. cbn. case_decide; [| reflexivity].
      do 2 f_equal. lia.
    + lia.
Qed.

Lemma draw_lines_on_one_page_witness :
  draw_lines 792 spanish_lines 672 =
  (mjoin (imap (fun (i : nat) (line : string) =>
                  if decide (line ≠ EmptyString)
                  then [drawString 72 (672 - 18 * Z.of_nat i) line] else []) spanish_lines),
   672 - 18 * Z.of_nat (length spanish_lines)).
Proof. apply (draw_lines_on_one_page 792 spanish_lines 672). cbn. lia. Defined.

Lemma write_pdf_breaks_page_iff (height : Z) (path title : string) (lines : list string) :
  170 <= height →
  showPage ∈ write_pdf height path title lines ↔
  height - 120 - 18 * Z.of_nat (length lines) < 50.
Proof.
  intros Hh. unfold write_pdf. cbn zeta. rewrite !elem_of_app.
  replace (height - 80 - 40) with (height - 120) by lia.
  rewrite (draw_lines_breaks_page_iff_aux height lines (height - 120)) by lia.
  rewrite !elem_of_cons, !elem_of_nil. split.
  - intros [H | [H | [H | H]]]; [| | exact H |]; by repeat destruct H as [H | H].
  - intros H. right. right. left. exact H.
Qed.

(** X18: the five documents fit on one page each exactly when the page is at
    least 674 points high (the longest body has 28 lines); on a shorter
    page, down to 170 points, some document starts a second page. *)
Theorem pdfs_break_page_iff_short (height : Z) :
  170 <= height →
  showPage ∈ create_multilingual_test_pdfs height ↔ height < 674.
Proof.
  intros Hh. unfold create_multilingual_test_pdfs.
  rewrite !elem_of_app, !write_pdf_breaks_page_iff by exact Hh.
  rewrite list_elem_of_singleton.
  change (length spanish_lines) with 24%nat.
  change (length english_lines) with 28%nat.
  change (length mixed_lines) with 25%nat.
  change (length complex_spanish_lines) with 22%nat.
  change (length complex_english_lines) with 24%nat.
  split; [| lia].
  intros [H | [H | [H | [H | [H | H]]]]]; first [discriminate H | lia].
Qed.

Lemma pdfs_break_page_iff_short_witness :
  showPage ∈ create_multilingual_test_pdfs 792 ↔ 792 < 674.
Proof. apply (pdfs_break_page_iff_short 792). lia. Defined.
